(** * Shortcut-Composer: a shallow embedding of the plugin's core logic

    Modelled sources (Python, under shortcut_composer/):
    - templates/mouse_tracker_utils/axis_trackers.py   (DoubleAxisTracker)
    - config_system/field_base.py                      (FieldBase)
    - composer_utils/config/global_config.py           (Config)
    - templates/pie_menu_utils/pie_manager.py          (PieManager, LabelAnimator)
    - core_components/controllers/view_controllers.py  (PresetController)
    - core_components/controllers/core_controllers.py  (UndoController)
    - core_components/controllers/node_controllers.py  (layer controllers)
    - templates/pie_menu_utils/settings_gui/scroll_area.py (OffsetGridLayout)
    - templates/pie_menu_utils/label_widget.py         (LabelWidget)
    - composer_library/shortcut_templates/layer_picker.py (PickStrategy)

    Host objects (Qt timers, the cursor, Krita's settings store, the preset
    catalog) are modelled as explicit state that is passed around. *)

From Stdlib Require Import ZArith QArith Qminmax Qround Lia Lqa DecimalString.
From stdpp Require Import base gmap strings list.

Set Warnings "-register-all".
Local Open Scope Z_scope.

(* ================================================================== *)
(** ** Python's [round] on exact rationals                             *)
(* ================================================================== *)

(** Python's built-in [round(x)] rounds half to even.  A Python float is a
    dyadic rational, so [round] on it is [round_half_even] of that rational,
    written here as [n / d] with [d > 0]. *)
Definition py_round_div (n d : Z) : Z :=
  let f := n / d in
  let r := n mod d in
  match Z.compare (2 * r) d with
  | Lt => f
  | Gt => f + 1
  | Eq => if Z.even f then f else f + 1
  end.

(** [round(q)] for a rational [q]. *)
Definition py_round (q : Q) : Z := py_round_div (Qnum q) (Zpos (Qden q)).

(* ================================================================== *)
(** ** DoubleAxisTracker (axis_trackers.py)                            *)
(* ================================================================== *)

Module DoubleAxis.

(** Cursor position, as returned by [Krita.get_cursor()]. *)
Definition point := (Z * Z)%type.

(** [MouseComparator]: stores the start position. *)
Record MouseComparator := { start_x : Z; start_y : Z }.

Definition delta_x (c : MouseComparator) (cur : point) : Z :=
  Z.abs (start_x c - fst cur).
Definition delta_y (c : MouseComparator) (cur : point) : Z :=
  Z.abs (start_y c - snd cur).
Definition is_horizontal (c : MouseComparator) (cur : point) : bool :=
  Z.gtb (delta_x c cur) (delta_y c cur).

(** A [SliderHandler] (slider_handler.py is not in the sources): only whether
    it is tracking and how many times [start()] was called are observed. *)
Record handler := { running : bool; starts : nat }.

Definition handler_start (h : handler) : handler :=
  {| running := true; starts := S (starts h) |}.
(** Modelled from the spec: [SliderHandler.stop] (slider_handler.py is
    missing); "every started timer/tracking session has a matching stop()
    that must be safe to call multiple times". *)
Definition handler_stop (h : handler) : handler :=
  {| running := false; starts := starts h |}.

(** The tracker's state: the Qt decision timer, the comparator of the last
    press ([None] before any press) and both handlers. *)
Record tracker := {
  timer_active : bool;
  comparator : option MouseComparator;
  horizontal : handler;
  vertical : handler
}.

Definition idle_handler : handler := {| running := false; starts := 0 |}.
Definition init : tracker :=
  {| timer_active := false; comparator := None;
     horizontal := idle_handler; vertical := idle_handler |}.

(** [on_key_press]: a fresh comparator and [self._timer.start(50)]. *)
Definition on_key_press (t : tracker) (cur : point) : tracker :=
  {| timer_active := true;
     comparator := Some {| start_x := fst cur; start_y := snd cur |};
     horizontal := horizontal t; vertical := vertical t |}.

(** [_start_after_picking_slider], run by the timer's timeout. *)
Definition start_after_picking_slider (t : tracker) (cur : point) : tracker :=
  match comparator t with
  | None => t
  | Some c =>
      if (delta_x c cur <=? 10) && (delta_y c cur <=? 10) then t
      else
        let t' :=
          if is_horizontal c cur
          then {| timer_active := timer_active t; comparator := comparator t;
                  horizontal := handler_start (horizontal t);
                  vertical := vertical t |}
          else {| timer_active := timer_active t; comparator := comparator t;
                  horizontal := horizontal t;
                  vertical := handler_start (vertical t) |} in
        {| timer_active := false; comparator := comparator t';
           horizontal := horizontal t'; vertical := vertical t' |}
  end.

(** [on_every_key_release]: stops both handlers. *)
Definition on_every_key_release (t : tracker) : tracker :=
  {| timer_active := timer_active t; comparator := comparator t;
     horizontal := handler_stop (horizontal t);
     vertical := handler_stop (vertical t) |}.

(** Events delivered by the host's event loop.  A timer tick only reaches the
    tracker while its QTimer is active. *)
Inductive event :=
| Press (cur : point)
| Tick (cur : point)
| Release.

Definition step (t : tracker) (e : event) : tracker :=
  match e with
  | Press cur => on_key_press t cur
  | Tick cur => if timer_active t then start_after_picking_slider t cur else t
  | Release => on_every_key_release t
  end.

Definition run (t : tracker) (es : list event) : tracker := fold_left step es t.

Definition is_press (e : event) : bool :=
  match e with Press _ => true | _ => false end.

(** Whether the decision timer runs, as a count. *)
Definition timer_bit (t : tracker) : nat := if timer_active t then 1 else 0.

End DoubleAxis.

(* ================================================================== *)
(** ** Python values, [isinstance] and [==] (for config fields)        *)
(* ================================================================== *)

Module Py.

(** The runtime values a config field can hold: ints, bools, floats (as
    their exact rational value; NaN and infinities are not represented),
    strings, enum members and lists of them (ListField). *)
Inductive pyval :=
| PInt (z : Z)
| PBool (b : bool)
| PFloat (q : Q)
| PStr (s : string)
| PEnum (cls member : string)
| PList (xs : list pyval).

Inductive pytype := TInt | TBool | TFloat | TStr | TEnum (cls : string) | TList.

(** [type(v)] *)
Definition type_of (v : pyval) : pytype :=
  match v with
  | PInt _ => TInt
  | PBool _ => TBool
  | PFloat _ => TFloat
  | PStr _ => TStr
  | PEnum c _ => TEnum c
  | PList _ => TList
  end.

(** [isinstance(v, t)]; [bool] is a subclass of [int]. *)
Definition isinstance (v : pyval) (t : pytype) : bool :=
  match v, t with
  | PInt _, TInt => true
  | PBool _, TBool => true
  | PBool _, TInt => true
  | PFloat _, TFloat => true
  | PStr _, TStr => true
  | PEnum c _, TEnum c' => bool_decide (c = c')
  | PList _, TList => true
  | _, _ => false
  end.

(** Numeric view used by [==] across int, bool and float. *)
Definition num_of (v : pyval) : option Q :=
  match v with
  | PInt z => Some (inject_Z z)
  | PBool b => Some (if b then 1%Q else 0%Q)
  | PFloat q => Some q
  | _ => None
  end.

(** [a == b]: numeric values compare by value, enum members by identity,
    lists element-wise. *)
Fixpoint py_eq (a b : pyval) : bool :=
  match a, b with
  | PStr s, PStr s' => bool_decide (s = s')
  | PEnum c m, PEnum c' m' => bool_decide (c = c') && bool_decide (m = m')
  | PList xs, PList ys =>
      (fix go (xs ys : list pyval) : bool :=
         match xs, ys with
         | [], [] => true
         | x :: xs', y :: ys' => py_eq x y && go xs' ys'
         | _, _ => false
         end) xs ys
  | _, _ =>
      match num_of a, num_of b with
      | Some x, Some y => Qeq_bool x y
      | _, _ => false
      end
  end.

End Py.

(* ================================================================== *)
(** ** FieldBase (config_system/field_base.py)                         *)
(* ================================================================== *)

Module Field.
Import Py.

(** Krita's settings store: [(group, name) -> raw string]. *)
Abbreviation store := (gmap (string * string) string).

(** What the field's code does to the outside world, in order. *)
Inductive effect :=
| ReadSetting (group name : string)       (* Krita.read_setting *)
| WriteSetting (group name value : string) (* Krita.write_setting *)
| RunCallback (id : nat).                  (* a registered callback *)

Inductive exn := TypeError.

Inductive outcome := Returned | Raised (e : exn).

(** A field.  [read] and [_to_string] are abstract in FieldBase; the
    subclass's [read] parses the raw stored string (or falls back when it is
    absent), so it is a function of that raw value.  [callbacks] is
    [_on_change_callbacks], identified by number. *)
Record field := {
  config_group : string;
  name : string;
  default : pyval;
  read_raw : option string -> pyval;
  to_string : pyval -> string;
  callbacks : list nat
}.

Definition key (f : field) : string * string := (config_group f, name f).

(** [self.read()], with the store access it performs. *)
Definition read (f : field) (st : store) : pyval * list effect :=
  (read_raw f (st !! key f), [ReadSetting (config_group f) (name f)]).

(** [_is_write_redundant] *)
Definition is_write_redundant (f : field) (v : pyval) (st : store)
  : bool * list effect :=
  let '(cur, eff1) := read f st in
  if py_eq cur v then (true, eff1)
  else
    let raw := st !! key f in
    (match raw with None => true | Some _ => false end && py_eq v (default f),
     eff1 ++ [ReadSetting (config_group f) (name f)]).

(** [write]: the result, the new store and the effects performed. *)
Definition write (f : field) (v : pyval) (st : store)
  : outcome * store * list effect :=
  if negb (isinstance v (type_of (default f))) then (Raised TypeError, st, [])
  else
    let '(red, eff) := is_write_redundant f v st in
    if red then (Returned, st, eff)
    else (Returned, <[key f := to_string f v]> st,
          eff ++ WriteSetting (config_group f) (name f) (to_string f v)
              :: map RunCallback (callbacks f)).

(** [reset_default] *)
Definition reset_default (f : field) (st : store) : outcome * store * list effect :=
  write f (default f) st.

(** Effects that change the store or run callbacks (everything but reads). *)
Definition is_mutation (e : effect) : bool :=
  match e with ReadSetting _ _ => false | _ => true end.

Definition mutations (es : list effect) : list effect := filter is_mutation es.

(** The decision of [_is_write_redundant], as a boolean. *)
Definition write_redundant (f : field) (v : pyval) (st : store) : bool :=
  fst (is_write_redundant f v st).

(** What resetting [f] on store [st] writes, and the entry it leaves. *)
Definition reset_writes (st : store) (f : field) : list effect :=
  if write_redundant f (default f) st then []
  else WriteSetting (config_group f) (name f) (to_string f (default f))
       :: map RunCallback (callbacks f).

Definition reset_value (st : store) (f : field) : option string :=
  if write_redundant f (default f) st then st !! key f
  else Some (to_string f (default f)).

(** A sample int field (default 60) stored under ("ShortcutComposer",
    "FPS limit"), whose read yields 60, which serialises values as "30" and
    has one registered callback. *)
Definition sample_field : field :=
  {| config_group := "ShortcutComposer"; name := "FPS limit"; default := PInt 60;
     read_raw := fun _ => PInt 60; to_string := fun _ => "30"%string;
     callbacks := [7%nat] |}.


End Field.

(* ================================================================== *)
(** ** Config (composer_utils/config/global_config.py)                 *)
(* ================================================================== *)

Module Config.
Import Py Field.

(** [ImmutableField(name, default)].  Its class lives in
    composer_utils/config/fields.py, which is not among the sources: the
    config group and the parsing/serialising functions it passes to
    FieldBase are kept as parameters; it registers no callback. *)
Definition ImmutableField (grp : string) (rd : pyval -> option string -> pyval)
    (ts : pyval -> string) (nm : string) (d : pyval) : field :=
  {| config_group := grp; name := nm; default := d; read_raw := rd d;
     to_string := ts; callbacks := [] |}.

(** The fields held by [Config] (in class-body order, as [cls.__dict__]
    yields them).  Float literals are given by their decimal value. *)
Definition fields (grp : string) (rd : pyval -> option string -> pyval)
    (ts : pyval -> string) : list field :=
  let F := ImmutableField grp rd ts in
  [ F "Short vs long press time" (PFloat (3 # 10));
    F "Tracker sensitivity scale" (PFloat 1);
    F "Tracker deadzone" (PInt 0);
    F "FPS limit" (PInt 60);
    F "Pie global scale" (PFloat 1);
    F "Pie icon global scale" (PFloat 1);
    F "Pie deadzone global scale" (PFloat 1);
    F "Pie animation time" (PFloat (2 # 10)) ].

(** The loop of [reset_defaults]: [config_field.reset_default()] on each field
    in turn; an exception would abort the loop. *)
Fixpoint reset_all (fs : list field) (st : store) : outcome * store * list effect :=
  match fs with
  | [] => (Returned, st, [])
  | f :: fs' =>
      let '(o, st1, e1) := reset_default f st in
      match o with
      | Raised e => (Raised e, st1, e1)
      | Returned =>
          let '(o2, st2, e2) := reset_all fs' st1 in (o2, st2, e1 ++ e2)
      end
  end.

Definition reset_defaults (grp : string) (rd : pyval -> option string -> pyval)
    (ts : pyval -> string) (st : store) : outcome * store * list effect :=
  reset_all (fields grp rd ts) st.

(** [get_sleep_time], given the value [cls.FPS_LIMIT.read()] (an int):
    [round(1000/fps_limit) if fps_limit else 1].  The true division
    [1000/fps_limit] is the rational [n/d] with [d > 0]. *)
Definition get_sleep_time (fps_limit : Z) : Z :=
  if fps_limit =? 0 then 1
  else if 0 <? fps_limit then py_round_div 1000 fps_limit
  else py_round_div (-1000) (- fps_limit).

End Config.

(* ================================================================== *)
(** ** PieManager and LabelAnimator (pie_manager.py)                   *)
(* ================================================================== *)

Module Pie.

Definition point := (Z * Z)%type.

(** Labels are identified by a number; [activation_progress.value] is kept
    next to each label, in [label_holder] order. *)
Record pie := {
  visible : bool;                (* pie_widget.isVisible() *)
  active : option nat;           (* pie_widget.active *)
  labels : list (nat * Q);       (* label, activation_progress.value *)
  manager_timer : bool;          (* PieManager._timer running *)
  animator_timer : bool          (* LabelAnimator._timer running *)
}.

(** Modelled from the spec: [ActivationProgress] (label.py is not among the
    sources): "a scalar in [0,1] per label with a monotonic per-tick step (up
    toward 1 when active, down toward 0 otherwise)", clamped to [0,1]; the
    step size [s] comes from the animation time and the tick interval;
    [reset] returns to the rest state 0. *)
Definition progress_up (s v : Q) : Q := Qmin 1 (v + s).
Definition progress_down (s v : Q) : Q := Qmax 0 (v - s).
Definition progress_reset (v : Q) : Q := 0.

(** [self._pie_widget.active == label] *)
Definition is_active (act : option nat) (l : nat) : bool :=
  match act with Some a => Nat.eqb a l | None => false end.

(** [value not in (0, 1)] negated. *)
Definition at_bound (v : Q) : bool := Qeq_bool v 0 || Qeq_bool v 1.

(** [LabelAnimator.start] *)
Definition animator_start (p : pie) : pie :=
  {| visible := visible p; active := active p; labels := labels p;
     manager_timer := manager_timer p; animator_timer := true |}.

(** [LabelAnimator._update]: step every label, then stop the timer when all
    progress values are 0 or 1. *)
Definition animator_update (s : Q) (p : pie) : pie :=
  let ls := map (fun '(l, v) =>
                   (l, if is_active (active p) l then progress_up s v
                       else progress_down s v)) (labels p) in
  {| visible := visible p; active := active p; labels := ls;
     manager_timer := manager_timer p;
     animator_timer :=
       if forallb (fun lv => at_bound (snd lv)) ls then false
       else animator_timer p |}.

(** Timer ticks of the animator: a tick is delivered only while its timer
    runs. *)
Fixpoint animator_run (s : Q) (n : nat) (p : pie) : pie :=
  match n with
  | O => p
  | S n' => if animator_timer p then animator_run s n' (animator_update s p) else p
  end.

(** [PieManager.stop(hide)] *)
Definition manager_stop (hide : bool) (p : pie) : pie :=
  {| visible := if hide then false else visible p; active := active p;
     labels := map (fun '(l, v) => (l, progress_reset v)) (labels p);
     manager_timer := false; animator_timer := animator_timer p |}.

(** [PieManager._set_active_label] *)
Definition set_active_label (lbl : option nat) (p : pie) : pie :=
  if bool_decide (active p <> lbl) then
    animator_start {| visible := visible p; active := lbl; labels := labels p;
                      manager_timer := manager_timer p;
                      animator_timer := animator_timer p |}
  else p.

(** The geometry [_handle_cursor] consults: [self._circle.distance],
    [self._circle.angle_from_point] followed by [holder.on_angle(..).label]
    (CirclePoints and the widget holder are not among the sources) and the
    widget's [deadzone]. *)
Record geometry := {
  distance : point -> Q;
  label_on_angle : point -> nat;
  deadzone : Q
}.

(** [PieManager._handle_cursor] at cursor position [cursor]. *)
Definition handle_cursor (g : geometry) (cursor : point) (p : pie) : pie :=
  if negb (visible p) then manager_stop true p
  else if negb (Qle_bool (deadzone g) (distance g cursor)) then set_active_label None p
  else set_active_label (Some (label_on_angle g cursor)) p.

(** The calls [_handle_cursor] makes on the pie, in order: [stop()], the
    assignment of [pie_widget.active] and [self._animator.start()]. *)
Inductive pie_call := StopCall | AssignActive (lbl : option nat) | AnimatorStart.

Definition set_active_label_calls (lbl : option nat) (p : pie) : list pie_call :=
  if bool_decide (active p <> lbl) then [AssignActive lbl; AnimatorStart] else [].

Definition handle_cursor_calls (g : geometry) (cursor : point) (p : pie)
  : list pie_call :=
  if negb (visible p) then [StopCall]
  else if negb (Qle_bool (deadzone g) (distance g cursor))
  then set_active_label_calls None p
  else set_active_label_calls (Some (label_on_angle g cursor)) p.

(** Distance of a label's progress from its target (1 if active, else 0),
    and the bound kept by the animation proofs. *)
Definition dist (act : option nat) (lv : nat * Q) : Q :=
  if is_active act (fst lv) then 1 - snd lv else snd lv.

Definition progress_within (B : Q) (p : pie) : Prop :=
  Forall (fun lv => (0 <= snd lv <= 1)%Q /\ (dist (active p) lv <= B)%Q) (labels p).

End Pie.

(* ================================================================== *)
(** ** PresetController.get_label (view_controllers.py)                *)
(* ================================================================== *)

Module Preset.

Inductive QImage := MkImage (id : nat).
Inductive QPixmap := fromImage (img : QImage).

(** A preset resource; only [image()] is used. *)
Record preset := { image : QImage }.

Inductive pyexn := KeyError.
Inductive result (A : Type) := Ok (a : A) | Err (e : pyexn).
Arguments Ok {A} a.
Arguments Err {A} e.

(** [Krita.get_presets()[value]]: dict indexing raises KeyError. *)
Definition getitem (catalog : gmap string preset) (value : string) : result preset :=
  match catalog !! value with Some p => Ok p | None => Err KeyError end.

(** [get_label]: the try/except around the lookup. *)
Definition get_label (catalog : gmap string preset) (value : string)
  : result (option QPixmap) :=
  match getitem catalog value with
  | Ok p => Ok (Some (fromImage (image p)))
  | Err KeyError => Ok None
  end.

End Preset.

(* ================================================================== *)
(** ** UndoController.set_value (core_controllers.py)                  *)
(* ================================================================== *)

Module Undo.

(** [set_value(value)] on remembered position [state]: the new position and
    the host actions triggered. *)
Definition set_value (state : Z) (value : Q) : Z * list string :=
  let v := py_round value in
  if v =? state then (state, [])
  else if v >? state then (state + 1, ["edit_redo"%string])
  else (state - 1, ["edit_undo"%string]).

End Undo.

(* ================================================================== *)
(** ** OffsetGridLayout (settings_gui/scroll_area.py)                  *)
(* ================================================================== *)

Module Grid.

Record GridPosition := { gridrow : Z; gridcol : Z }.

(** [_get_position]: [divmod] on ints is floor division and modulo, as
    [Z.div] and [Z.modulo]. *)
Definition get_position (max_columns index : Z) : GridPosition :=
  let items_in_group := 2 * max_columns - 1 in
  let group := index / items_in_group in
  let item := index mod items_in_group in
  if item <? max_columns then {| gridrow := group * 4; gridcol := item * 2 |}
  else
    let col := item - max_columns in
    {| gridrow := group * 4 + 2; gridcol := col * 2 + 1 |}.

(** Python's [list.insert(index, x)]: a negative index counts from the end,
    and the index is clamped to [0, len]. *)
Definition py_list_insert {A} (l : list A) (index : Z) (x : A) : list A :=
  let n := Z.of_nat (length l) in
  let j := if index <? 0 then Z.max 0 (index + n) else Z.min index n in
  take (Z.to_nat j) l ++ x :: drop (Z.to_nat j) l.

(** The layout: its [_widgets] (widgets are compared by identity, here a
    number) and [_max_columns]. *)
Record layout := { widgets : list nat; max_columns : Z }.

(** [_internal_insert]: skip a widget already held. *)
Definition internal_insert (lay : layout) (index : Z) (w : nat) : layout :=
  if bool_decide (w ∈ widgets lay) then lay
  else {| widgets := py_list_insert (widgets lay) index w;
          max_columns := max_columns lay |}.

(** [len(self)] *)
Definition len (lay : layout) : Z := Z.of_nat (length (widgets lay)).

(** [insert], [append] and [extend]; the [_refresh] that follows each only
    re-places the held widgets (see [refresh]). *)
Definition insert (lay : layout) (index : Z) (w : nat) : layout :=
  internal_insert lay index w.
Definition append (lay : layout) (w : nat) : layout :=
  internal_insert lay (len lay) w.
Definition extend (lay : layout) (ws : list nat) : layout :=
  fold_left (fun l w => internal_insert l (len l) w) ws lay.

(** [_refresh]: widget [i] goes to [_get_position(i)], spanning 2x2 cells. *)
Definition refresh (lay : layout) : list (nat * GridPosition) :=
  imap (fun i w => (w, get_position (max_columns lay) (Z.of_nat i))) (widgets lay).

End Grid.

(* ================================================================== *)
(** ** PickStrategy (composer_library/shortcut_templates/layer_picker.py) *)
(* ================================================================== *)

Module LayerPicker.
Section Strategies.

(** Nodes of the document, compared with [==], and [node.is_visible()]. *)
Context {node : Type} `{EqDecision node}.
Variable is_visible : node -> bool.

(** [__pick_all]: [document.all_nodes()]. *)
Definition pick_all (all_nodes : list node) : list node := all_nodes.

(** [__pick_visible] *)
Definition pick_visible (all_nodes : list node) (current_node : node) : list node :=
  filter (fun n => is_visible n = true \/ n = current_node) all_nodes.

End Strategies.
End LayerPicker.

(* ================================================================== *)
(** ** Node-based controllers (node_controllers.py)                    *)
(* ================================================================== *)

Module NodeCtl.

(** The active node's properties the controllers touch and the number of
    [active_document.refresh()] calls. *)
Record node_state := {
  opacity : Z;
  blending_mode : string;   (* BlendingMode member, by name *)
  visible : bool;
  document_refreshes : nat
}.

(** [LayerOpacityController.set_value] *)
Definition LayerOpacity_set_value (st : node_state) (v : Z) : node_state :=
  if negb (opacity st =? v) then
    {| opacity := v; blending_mode := blending_mode st; visible := visible st;
       document_refreshes := S (document_refreshes st) |}
  else st.

(** [LayerBlendingModeController.set_value] *)
Definition LayerBlendingMode_set_value (st : node_state) (v : string) : node_state :=
  if negb (bool_decide (blending_mode st = v)) then
    {| opacity := opacity st; blending_mode := v; visible := visible st;
       document_refreshes := S (document_refreshes st) |}
  else st.

(** [LayerVisibilityController.set_value] *)
Definition LayerVisibility_set_value (st : node_state) (v : bool) : node_state :=
  if negb (Bool.eqb (visible st) v) then
    {| opacity := opacity st; blending_mode := blending_mode st; visible := v;
       document_refreshes := S (document_refreshes st) |}
  else st.

End NodeCtl.

(** [UndoController.set_value] called [k] times with the same value: the
    final position and all actions triggered. *)
Fixpoint Undo_set_value_n (state : Z) (value : Q) (k : nat) : Z * list string :=
  match k with
  | O => (state, [])
  | S k' =>
      let '(s1, a1) := Undo.set_value state value in
      let '(s2, a2) := Undo_set_value_n s1 value k' in
      (s2, a1 ++ a2)
  end.

(* ================================================================== *)
(** ** LabelWidget and ChildInstruction (label_widget.py, scroll_area.py) *)
(* ================================================================== *)

Module Widget.

Inductive cursor_shape := ArrowCursor | CrossCursor.

(** The three border colours of the widget's [PieStyle]. *)
Inductive color := active_color_dark | active_color | border_color.

(** A LabelWidget; [instructions] are ChildInstructions, each given by the
    QLabel (a number) whose text it sets. *)
Record label_widget := {
  draggable : bool;
  enabled : bool;
  hovered : bool;
  cursor : cursor_shape;
  instructions : list nat
}.

(** The [draggable] setter. *)
Definition set_draggable (w : label_widget) (value : bool) : label_widget :=
  {| draggable := value; enabled := enabled w; hovered := hovered w;
     cursor := if value then ArrowCursor else CrossCursor;
     instructions := instructions w |}.

(** The [enabled] setter (the repaint is not observed). *)
Definition set_enabled (w : label_widget) (value : bool) : label_widget :=
  let w1 := {| draggable := draggable w; enabled := value; hovered := hovered w;
               cursor := cursor w; instructions := instructions w |} in
  if negb value then set_draggable w1 false else w1.

(** [_border_color] *)
Definition border_color_of (w : label_widget) : color :=
  if negb (enabled w) then active_color_dark
  else if hovered w && draggable w then active_color
  else border_color.

(** [mousePressEvent]: whether a drag is started. *)
Definition mouse_press_starts_drag (w : label_widget) (left_button_only : bool) : bool :=
  if negb left_button_only || negb (draggable w) then false else true.

(** QLabel texts, by QLabel number. *)
Abbreviation texts := (gmap nat string).

(** [enterEvent]: hovered, then each ChildInstruction's [on_enter] sets its
    QLabel to [str(label.pretty_name)]. *)
Definition enter_event (w : label_widget) (pretty_name : string) (t : texts)
  : label_widget * texts :=
  ({| draggable := draggable w; enabled := enabled w; hovered := true;
      cursor := cursor w; instructions := instructions w |},
   fold_left (fun t d => <[d := pretty_name]> t) (instructions w) t).

(** [leaveEvent]: not hovered, then each [on_leave] clears its QLabel. *)
Definition leave_event (w : label_widget) (t : texts) : label_widget * texts :=
  ({| draggable := draggable w; enabled := enabled w; hovered := false;
      cursor := cursor w; instructions := instructions w |},
   fold_left (fun t d => <[d := ""%string]> t) (instructions w) t).

End Widget.

(* ================================================================== *)
(** * Properties                                                       *)
(* ================================================================== *)

(* ------------------------------------------------------------------ *)
(** ** DoubleAxisTracker                                               *)
(* ------------------------------------------------------------------ *)

Section DoubleAxisProofs.
Import DoubleAxis.

(** Once the decision timer is off, events other than a press start no
    handler. *)
Lemma run_no_press_timer_off (t : tracker) (es : list event) :
  timer_active t = false -> forallb (fun e => negb (is_press e)) es = true ->
  timer_active (run t es) = false /\
  starts (horizontal (run t es)) = starts (horizontal t) /\
  starts (vertical (run t es)) = starts (vertical t).
Proof.
  revert t. induction es as [|e es IH]; intros t Hoff Hnp; simpl in *.
  - auto.
  - apply andb_true_iff in Hnp as [He Hnp].
    destruct e as [cur|cur|]; simpl in He; try discriminate.
    + simpl. rewrite Hoff. apply IH; auto.
    + destruct (IH (on_every_key_release t)) as (H1 & H2 & H3); [exact Hoff|exact Hnp|].
      simpl in *. rewrite H2, H3. auto.
Qed.

(** C5: on a tick where [max(delta_x, delta_y) <= 10] nothing happens; on the
    first tick where it exceeds 10 exactly one handler is started (the
    horizontal one iff [delta_x > delta_y]) and the decision timer is
    stopped, so no further handler start happens until the next press.  In
    particular, a press at (100,100) followed by a first tick at (115,103)
    starts the horizontal handler and the vertical one never starts. *)
Theorem double_axis_commits_once (t : tracker) (c : MouseComparator)
    (cur : point) (rest : list event) :
  timer_active t = true -> comparator t = Some c ->
  forallb (fun e => negb (is_press e)) rest = true ->
  (Z.max (delta_x c cur) (delta_y c cur) <= 10 -> step t (Tick cur) = t) /\
  (10 < Z.max (delta_x c cur) (delta_y c cur) ->
   let t1 := step t (Tick cur) in
   timer_active t1 = false /\
   (if is_horizontal c cur
    then starts (horizontal t1) = S (starts (horizontal t)) /\
         starts (vertical t1) = starts (vertical t)
    else starts (vertical t1) = S (starts (vertical t)) /\
         starts (horizontal t1) = starts (horizontal t)) /\
   starts (horizontal (run t1 rest)) = starts (horizontal t1) /\
   starts (vertical (run t1 rest)) = starts (vertical t1)) /\
  (let t2 := run init ([Press (100, 100); Tick (115, 103)] ++ rest) in
   starts (horizontal t2) = 1%nat /\ starts (vertical t2) = 0%nat).
Proof.
  intros Hon Hc Hnp. split; [|split].
  - intros Hle. simpl. rewrite Hon. unfold start_after_picking_slider. rewrite Hc.
    replace ((delta_x c cur <=? 10) && (delta_y c cur <=? 10)) with true; [reflexivity|].
    symmetry. apply andb_true_iff. split; apply Z.leb_le; lia.
  - intros Hgt t1.
    assert (Ht1 : timer_active t1 = false /\
      (if is_horizontal c cur
       then starts (horizontal t1) = S (starts (horizontal t)) /\
            starts (vertical t1) = starts (vertical t)
       else starts (vertical t1) = S (starts (vertical t)) /\
            starts (horizontal t1) = starts (horizontal t))).
    { subst t1. simpl. rewrite Hon. unfold start_after_picking_slider. rewrite Hc.
      replace ((delta_x c cur <=? 10) && (delta_y c cur <=? 10)) with false.
      - destruct (is_horizontal c cur); simpl; auto.
      - symmetry. apply andb_false_iff.
        destruct (Z.max_spec (delta_x c cur) (delta_y c cur)) as [[_ E]|[_ E]];
          rewrite E in Hgt; [right|left]; apply Z.leb_gt; lia. }
    destruct Ht1 as [Hoff Hst].
    destruct (run_no_press_timer_off t1 rest Hoff Hnp) as (_ & H2 & H3).
    auto.
  - unfold run. rewrite fold_left_app.
    change (fold_left step rest (fold_left step [Press (100, 100); Tick (115, 103)] init))
      with (run (run init [Press (100, 100); Tick (115, 103)]) rest).
    destruct (run_no_press_timer_off (run init [Press (100, 100); Tick (115, 103)])
                rest eq_refl Hnp) as (_ & H2 & H3).
    rewrite H2, H3. split; reflexivity.
Qed.

Lemma double_axis_commits_once_witness :
  let t := on_key_press init (100, 100) in
  let c := {| start_x := 100; start_y := 100 |} in
  timer_active t = true /\ comparator t = Some c /\
  forallb (fun e => negb (is_press e)) [Tick (130, 140); Release] = true /\
  starts (horizontal (run (step t (Tick (115, 103))) [Tick (130, 140); Release])) = 1%nat.
Proof.
  intros t c.
  destruct (double_axis_commits_once t c (115, 103) [Tick (130, 140); Release]
              eq_refl eq_refl eq_refl) as (_ & H & _).
  destruct (H ltac:(vm_compute; reflexivity)) as (_ & Hs & Hr & _).
  split; [reflexivity|]. split; [reflexivity|]. split; [reflexivity|].
  rewrite Hr. simpl in Hs. destruct Hs as [Hs _]. exact Hs.
Defined.

(** C1 (divergence): [on_every_key_release] stops both handlers but not the
    decision timer.  A press at (0,0), a tick at (5,0) (below the threshold),
    the release, and then one more tick of the still-running timer with the
    cursor at (15,0): the horizontal handler is started and left running
    after the key was released. *)
Theorem double_axis_starts_after_release :
  let t := run init [Press (0, 0); Tick (5, 0); Release; Tick (15, 0)] in
  starts (horizontal t) = 1%nat /\ running (horizontal t) = true /\
  let t_rel := run init [Press (0, 0); Tick (5, 0); Release] in
  starts (horizontal t_rel) = 0%nat /\ starts (vertical t_rel) = 0%nat /\
  timer_active t_rel = true.
Proof. vm_compute. repeat split. Qed.

End DoubleAxisProofs.

(* ------------------------------------------------------------------ *)
(** ** FieldBase.write                                                 *)
(* ------------------------------------------------------------------ *)

Section FieldProofs.
Import Py Field.

Lemma write_redundant_spec (f : field) (v : pyval) (st : store) :
  write_redundant f v st =
  py_eq (read_raw f (st !! key f)) v
  || (bool_decide (st !! key f = None) && py_eq v (default f)).
Proof.
  unfold write_redundant, is_write_redundant, read. simpl.
  destruct (py_eq (read_raw f (st !! key f)) v); simpl; [reflexivity|].
  destruct (st !! key f); reflexivity.
Qed.

Lemma mutations_reads (f : field) (v : pyval) (st : store) :
  mutations (snd (is_write_redundant f v st)) = [].
Proof.
  unfold is_write_redundant, read. simpl.
  destruct (py_eq _ v); reflexivity.
Qed.

(** Unfolding [write] on a value of the right type. *)
Lemma write_typed (f : field) (v : pyval) (st : store) :
  isinstance v (type_of (default f)) = true ->
  write f v st =
  if write_redundant f v st then (Returned, st, snd (is_write_redundant f v st))
  else (Returned, <[key f := to_string f v]> st,
        snd (is_write_redundant f v st) ++
        WriteSetting (config_group f) (name f) (to_string f v)
        :: map RunCallback (callbacks f)).
Proof.
  intros Hty. unfold write, write_redundant. rewrite Hty. simpl.
  destruct (is_write_redundant f v st) as [red eff]. reflexivity.
Qed.

Lemma mutations_map_callbacks (ids : list nat) :
  mutations (map RunCallback ids) = map RunCallback ids.
Proof.
  unfold mutations. induction ids as [|i ids IH]; simpl; [reflexivity|].
  rewrite filter_cons. simpl. by rewrite IH.
Qed.

(** C2: for a value of the field's type, [write] returns normally; when the
    value read from the store equals it, or nothing is stored and it equals
    the default, the store is untouched and nothing but reads happens;
    otherwise there is exactly one store write, followed by every registered
    callback in order. *)
Theorem write_skips_redundant (f : field) (v : pyval) (st : store) :
  isinstance v (type_of (default f)) = true ->
  let '(o, st', eff) := write f v st in
  o = Returned /\
  if py_eq (read_raw f (st !! key f)) v
     || (bool_decide (st !! key f = None) && py_eq v (default f))
  then st' = st /\ mutations eff = []
  else st' = <[key f := to_string f v]> st /\
       mutations eff = WriteSetting (config_group f) (name f) (to_string f v)
                       :: map RunCallback (callbacks f).
Proof.
  intros Hty. rewrite (write_typed f v st Hty), <- write_redundant_spec.
  destruct (write_redundant f v st).
  - split; [reflexivity|]. split; [reflexivity|]. apply mutations_reads.
  - split; [reflexivity|]. split; [reflexivity|].
    unfold mutations. rewrite filter_app. fold (mutations (snd (is_write_redundant f v st))).
    rewrite mutations_reads. rewrite filter_cons. simpl.
    exact (f_equal _ (mutations_map_callbacks (callbacks f))).
Qed.


Lemma write_skips_redundant_witness :
  isinstance (PInt 30) (type_of (default sample_field)) = true /\
  let '(o, st', eff) := write sample_field (PInt 30) ∅ in
  o = Returned /\ st' = <[("ShortcutComposer", "FPS limit")%string := "30"%string]> ∅ /\
  mutations eff = [WriteSetting "ShortcutComposer" "FPS limit" "30"; RunCallback 7].
Proof.
  split; [reflexivity|].
  pose proof (write_skips_redundant sample_field (PInt 30) ∅ eq_refl) as H.
  destruct (write sample_field (PInt 30) ∅) as [[o st'] eff].
  destruct H as [Ho H]. split; [exact Ho|].
  change (if false then st' = ∅ /\ mutations eff = []
          else st' = <[key sample_field := to_string sample_field (PInt 30)]> ∅ /\
               mutations eff =
               WriteSetting (config_group sample_field) (name sample_field)
                 (to_string sample_field (PInt 30))
               :: map RunCallback (callbacks sample_field)) in H.
  exact H.
Defined.

(** C6: a value that is not an instance of the default's type raises
    TypeError before any store access: no effect, store unchanged. *)
Theorem write_type_mismatch (f : field) (v : pyval) (st : store) :
  isinstance v (type_of (default f)) = false ->
  write f v st = (Raised TypeError, st, []).
Proof. intros H. unfold write. rewrite H. reflexivity. Qed.

Lemma write_type_mismatch_witness :
  isinstance (PStr "fast") (type_of (default sample_field)) = false /\
  write sample_field (PStr "fast") ∅ = (Raised TypeError, ∅, []).
Proof.
  split; [reflexivity|]. apply write_type_mismatch. reflexivity.
Defined.

End FieldProofs.

(* ------------------------------------------------------------------ *)
(** ** Config.reset_defaults                                           *)
(* ------------------------------------------------------------------ *)

Section ResetProofs.
Import Py Field.

Lemma isinstance_type_of (v : pyval) : isinstance v (type_of v) = true.
Proof. destruct v; simpl; try reflexivity. by rewrite bool_decide_eq_true_2. Qed.

(** Redundancy only looks at the field's own entry. *)
Lemma write_redundant_local (f : field) (v : pyval) (st1 st2 : store) :
  st1 !! key f = st2 !! key f ->
  write_redundant f v st1 = write_redundant f v st2.
Proof. intros E. rewrite !write_redundant_spec, E. reflexivity. Qed.



Lemma reset_default_spec (f : field) (st : store) :
  let '(o, st', eff) := reset_default f st in
  o = Returned /\
  st' = (if write_redundant f (default f) st then st
         else <[key f := to_string f (default f)]> st) /\
  mutations eff = reset_writes st f.
Proof.
  unfold reset_default, reset_writes.
  rewrite (write_typed f (default f) st (isinstance_type_of _)).
  destruct (write_redundant f (default f) st).
  - split; [reflexivity|]. split; [reflexivity|]. apply mutations_reads.
  - split; [reflexivity|]. split; [reflexivity|].
    unfold mutations. rewrite filter_app. fold (mutations (snd (is_write_redundant f (default f) st))).
    rewrite mutations_reads. rewrite filter_cons. simpl.
    exact (f_equal _ (mutations_map_callbacks (callbacks f))).
Qed.

(** The sweep over fields with pairwise distinct keys. *)
Lemma reset_all_spec (fs : list field) (st : store) :
  NoDup (map key fs) ->
  let '(o, st', eff) := Config.reset_all fs st in
  o = Returned /\
  Forall (fun f => st' !! key f = reset_value st f) fs /\
  (forall k, ~ In k (map key fs) -> st' !! k = st !! k) /\
  mutations eff = concat (map (reset_writes st) fs).
Proof.
  revert st. induction fs as [|f fs IH]; intros st Hnd; simpl.
  - split; [reflexivity|]. split; [constructor|]. split; [auto|reflexivity].
  - inversion Hnd as [|? ? Hnotin Hnd']; subst.
    rewrite list_elem_of_In in Hnotin.
    pose proof (reset_default_spec f st) as Hf.
    destruct (reset_default f st) as [[o1 st1] e1].
    destruct Hf as (-> & Hst1 & He1).
    pose proof (IH st1 Hnd') as Hr.
    destruct (Config.reset_all fs st1) as [[o2 st2] e2].
    destruct Hr as (-> & Hall & Hout & He2).
    (* entries of the other fields are untouched by the first write *)
    assert (Hother : forall g, In g fs -> st1 !! key g = st !! key g).
    { intros g Hg. rewrite Hst1. destruct (write_redundant f (default f) st); [reflexivity|].
      rewrite lookup_insert_ne; [reflexivity|].
      intros E. apply Hnotin. rewrite E. by apply in_map. }
    split; [reflexivity|]. split; [|split].
    + constructor.
      * rewrite Hout by exact Hnotin. rewrite Hst1. unfold reset_value.
        destruct (write_redundant f (default f) st); [reflexivity|].
        by rewrite lookup_insert_eq.
      * rewrite Forall_forall in Hall |- *. intros g Hg.
        pose proof Hg as Hg'. rewrite list_elem_of_In in Hg'.
        rewrite (Hall g Hg). clear Hg. rename Hg' into Hg.
        unfold reset_value.
        rewrite (write_redundant_local g (default g) st1 st (Hother g Hg)).
        by rewrite (Hother g Hg).
    + intros k Hk. rewrite Hout by (intros H; apply Hk; right; exact H).
      rewrite Hst1. destruct (write_redundant f (default f) st); [reflexivity|].
      rewrite lookup_insert_ne; [reflexivity|]. intros E. apply Hk. left. exact E.
    + unfold mutations. rewrite filter_app. fold (mutations e1). fold (mutations e2).
      rewrite He1, He2. simpl. f_equal. f_equal. apply map_ext_in. intros g Hg.
      unfold reset_writes. by rewrite (write_redundant_local g (default g) st1 st (Hother g Hg)).
Qed.

Lemma config_keys_distinct (grp : string) (rd : pyval -> option string -> pyval)
    (ts : pyval -> string) :
  NoDup (map key (Config.fields grp rd ts)).
Proof.
  apply NoDup_ListNoDup. apply (List.NoDup_map_inv snd). simpl.
  repeat constructor; simpl; intuition discriminate.
Qed.

(** C3 (as the code does it): [reset_defaults] returns normally; afterwards
    each field's entry holds its serialised default unless the reset was
    redundant (the value read equals the default, or nothing is stored), in
    which case the entry is left as it was; the store writes performed are
    exactly those of the non-redundant fields, in class order. *)
Theorem reset_defaults_rewrites_non_redundant (grp : string)
    (rd : pyval -> option string -> pyval) (ts : pyval -> string) (st : store) :
  let '(o, st', eff) := Config.reset_defaults grp rd ts st in
  o = Returned /\
  Forall (fun f => st' !! key f =
                   if write_redundant f (default f) st then st !! key f
                   else Some (to_string f (default f)))
         (Config.fields grp rd ts) /\
  mutations eff =
  concat (map (fun f => if write_redundant f (default f) st then []
                        else [WriteSetting (config_group f) (name f)
                                (to_string f (default f))])
              (Config.fields grp rd ts)).
Proof.
  pose proof (reset_all_spec (Config.fields grp rd ts) st (config_keys_distinct grp rd ts)) as H.
  unfold Config.reset_defaults.
  destruct (Config.reset_all (Config.fields grp rd ts) st) as [[o st'] eff].
  destruct H as (Ho & Hall & _ & He). split; [exact Ho|]. split; [exact Hall|].
  rewrite He. reflexivity.
Qed.

(** C3 (claim as stated fails): on an empty settings store every reset is
    redundant ([raw is None] and the value is the default), so the sweep
    writes nothing at all, and no field gets a store write of its default. *)
Lemma reset_defaults_empty_store_no_write :
  let '(_, st', eff) :=
    Config.reset_defaults "ShortcutComposer" (fun d _ => d) (fun _ => "0"%string) ∅ in
  st' = ∅ /\ mutations eff = [] /\
  ~ Forall (fun f => In (WriteSetting (config_group f) (name f) (to_string f (default f)))
                        (mutations eff))
           (Config.fields "ShortcutComposer" (fun d _ => d) (fun _ => "0"%string)).
Proof.
  vm_compute. split; [reflexivity|]. split; [reflexivity|].
  intros H. inversion H as [|? ? Hin _]. exact Hin.
Qed.

End ResetProofs.

(* ------------------------------------------------------------------ *)
(** ** Config.get_sleep_time                                           *)
(* ------------------------------------------------------------------ *)

(** [round(n/d)] is at least 1 exactly when [n/d > 1/2]. *)
Lemma py_round_div_ge1 (n d : Z) :
  0 < d -> (1 <= py_round_div n d <-> d < 2 * n).
Proof.
  intros Hd. unfold py_round_div.
  pose proof (Z.div_mod n d ltac:(lia)) as Hnd.
  pose proof (Z.mod_pos_bound n d Hd) as Hr.
  set (f := n / d) in *. set (r := n mod d) in *.
  destruct (Z.compare_spec (2 * r) d) as [E|E|E].
  - destruct (Z.lt_trichotomy f 0) as [Hf|[Hf|Hf]].
    + destruct (Z.even f); split; nia.
    + rewrite Hf. simpl. split; nia.
    + destruct (Z.even f); split; nia.
  - destruct (Z.lt_trichotomy f 1) as [Hf|[Hf|Hf]]; split; nia.
  - destruct (Z.lt_trichotomy f 0) as [Hf|[Hf|Hf]]; split; nia.
Qed.

(** C7 (claim as stated fails): at 2000 FPS and above the interval rounds to
    0 ms, and a limit of -5 gives a negative interval. *)
Lemma get_sleep_time_below_one :
  Config.get_sleep_time 2001 = 0 /\ Config.get_sleep_time 2000 = 0 /\
  Config.get_sleep_time (-5) = -200.
Proof. vm_compute. auto. Qed.

Lemma py_round_div_le_m1 (n d : Z) :
  0 < d -> (py_round_div n d <= -1 <-> 2 * n < - d).
Proof.
  intros Hd. unfold py_round_div.
  pose proof (Z.div_mod n d ltac:(lia)) as Hnd.
  pose proof (Z.mod_pos_bound n d Hd) as Hr.
  set (f := n / d) in *. set (r := n mod d) in *.
  destruct (Z.compare_spec (2 * r) d) as [E|E|E].
  - destruct (Z.lt_trichotomy f (-1)) as [Hf|[Hf|Hf]].
    + destruct (Z.even f); split; nia.
    + rewrite Hf. simpl. split; nia.
    + destruct (Z.even f); split; nia.
  - destruct (Z.lt_trichotomy f (-1)) as [Hf|[Hf|Hf]]; split; nia.
  - destruct (Z.lt_trichotomy f (-2)) as [Hf|[Hf|Hf]]; split; nia.
Qed.

Lemma py_round_div_zero (n d : Z) :
  0 < d -> - d <= 2 * n <= d -> py_round_div n d = 0.
Proof.
  intros Hd Hb.
  assert (H1 : ~ 1 <= py_round_div n d) by (rewrite py_round_div_ge1 by exact Hd; lia).
  assert (H2 : ~ py_round_div n d <= -1) by (rewrite py_round_div_le_m1 by exact Hd; lia).
  lia.
Qed.

(** C7 (as the code does it): 0 maps to 1; a nonzero limit gives
    [round(1000/fps)], the rational [1000/fps] rounded half to even (for
    example 60 FPS gives 17 ms); there is no clamp: the interval is at least
    1 ms exactly when [0 <= fps < 2000], a limit of 2000 or more gives 0, a
    limit strictly between -2000 and 0 gives a negative interval and a limit
    of -2000 or less gives 0. *)
Theorem get_sleep_time_spec (fps : Z) :
  Config.get_sleep_time 0 = 1 /\
  Config.get_sleep_time 60 = 17 /\
  (fps <> 0 ->
   Config.get_sleep_time fps = py_round (inject_Z 1000 / inject_Z fps)) /\
  (1 <= Config.get_sleep_time fps <-> 0 <= fps < 2000) /\
  (2000 <= fps -> Config.get_sleep_time fps = 0) /\
  (-2000 < fps < 0 -> Config.get_sleep_time fps <= -1) /\
  (fps <= -2000 -> Config.get_sleep_time fps = 0).
Proof.
  split; [reflexivity|]. split; [reflexivity|].
  unfold Config.get_sleep_time.
  split.
  { intros Hz. destruct fps as [|p|p]; [contradiction|reflexivity|reflexivity]. }
  destruct (Z.eqb_spec fps 0) as [->|Hz]; [lia|].
  destruct (Z.ltb_spec 0 fps) as [Hp|Hn].
  - rewrite py_round_div_ge1 by exact Hp.
    split; [lia|]. split; [intros; apply py_round_div_zero; lia|]. split; lia.
  - rewrite py_round_div_ge1 by lia.
    split; [lia|]. split; [lia|]. split.
    + intros. apply py_round_div_le_m1; lia.
    + intros. apply py_round_div_zero; lia.
Qed.

Lemma get_sleep_time_spec_witness :
  (-2000 < -5 < 0) /\ Config.get_sleep_time (-5) <= -1 /\
  (2000 <= 4000) /\ Config.get_sleep_time 4000 = 0.
Proof.
  destruct (get_sleep_time_spec (-5)) as (_ & _ & _ & _ & _ & H & _).
  destruct (get_sleep_time_spec 4000) as (_ & _ & _ & _ & H' & _).
  split; [lia|]. split; [apply H; lia|]. split; [lia|]. apply H'. lia.
Defined.

(* ------------------------------------------------------------------ *)
(** ** PieManager._handle_cursor                                       *)
(* ------------------------------------------------------------------ *)

Section PieProofs.
Import Pie.

Lemma set_active_label_active (lbl : option nat) (p : pie) :
  active (set_active_label lbl p) = lbl /\
  visible (set_active_label lbl p) = visible p /\
  manager_timer (set_active_label lbl p) = manager_timer p.
Proof.
  unfold set_active_label. destruct (bool_decide (active p <> lbl)) eqn:E.
  - simpl. auto.
  - apply bool_decide_eq_false in E. destruct (decide (active p = lbl)) as [->|N].
    + auto.
    + contradiction.
Qed.

(** C8 (as the code does it): with the cursor inside the deadzone, a visible
    pie gets no active label and keeps tracking; a pie that was hidden
    meanwhile is only stopped (timer off, progress reset, widget hidden) and
    keeps its active label. *)
Theorem handle_cursor_deadzone (g : geometry) (cursor : point) (p : pie) :
  (distance g cursor < deadzone g)%Q ->
  (visible p = true ->
   active (handle_cursor g cursor p) = None /\
   visible (handle_cursor g cursor p) = true /\
   manager_timer (handle_cursor g cursor p) = manager_timer p) /\
  (visible p = false ->
   handle_cursor g cursor p = manager_stop true p /\
   active (handle_cursor g cursor p) = active p).
Proof.
  intros Hlt. unfold handle_cursor. split; intros Hv; rewrite Hv; simpl.
  - replace (Qle_bool (deadzone g) (distance g cursor)) with false.
    + simpl. destruct (set_active_label_active None p) as (H1 & H2 & H3).
      rewrite H1, H2, H3. auto.
    + symmetry. apply not_true_iff_false. rewrite Qle_bool_iff. lra.
  - split; reflexivity.
Qed.

Lemma handle_cursor_deadzone_witness :
  let g := {| distance := fun _ => 0%Q; label_on_angle := fun _ => 2%nat;
              deadzone := 1%Q |} in
  let p := {| visible := true; active := Some 2%nat; labels := [(2%nat, 1%Q)];
              manager_timer := true; animator_timer := false |} in
  (distance g (5%Z, 5%Z) < deadzone g)%Q /\ visible p = true /\
  active (handle_cursor g (5%Z, 5%Z) p) = None.
Proof.
  intros g p.
  assert (Hlt : (distance g (5%Z, 5%Z) < deadzone g)%Q) by (simpl; lra).
  split; [exact Hlt|]. split; [reflexivity|].
  destruct (handle_cursor_deadzone g (5%Z, 5%Z) p Hlt) as [H _].
  destruct (H eq_refl) as [Ha _]. exact Ha.
Defined.

(** C8 (claim as stated fails): a hidden widget with an active label and the
    cursor on the centre keeps its active label. *)
Lemma handle_cursor_hidden_keeps_active :
  let g := {| distance := fun _ => 0%Q; label_on_angle := fun _ => 2%nat;
              deadzone := 1%Q |} in
  let p := {| visible := false; active := Some 2%nat; labels := [(2%nat, 1%Q)];
              manager_timer := true; animator_timer := false |} in
  (distance g (0%Z, 0%Z) < deadzone g)%Q /\
  active (handle_cursor g (0%Z, 0%Z) p) = Some 2%nat.
Proof. simpl. split; [lra|reflexivity]. Qed.

End PieProofs.

(* ------------------------------------------------------------------ *)
(** ** LabelAnimator                                                   *)
(* ------------------------------------------------------------------ *)

Section AnimatorProofs.
Import Pie.

Variable s : Q.
Hypothesis s_pos : (0 < s)%Q.

Local Open Scope Q_scope.

(** One label's step keeps it in [0,1] and brings it [s] closer to its
    target (never past it). *)
Lemma step_label_bound (act : bool) (B v : Q) :
  0 <= B -> 0 <= v <= 1 -> (if act then 1 - v else v) <= B + s ->
  let v' := if act then progress_up s v else progress_down s v in
  0 <= v' <= 1 /\ (if act then 1 - v' else v') <= B.
Proof.
  intros HB Hv Hd v'. subst v'. destruct act; simpl in *.
  - unfold progress_up.
    destruct (Q.min_spec 1 (v + s)) as [[H1 H2]|[H1 H2]]; lra.
  - unfold progress_down.
    destruct (Q.max_spec 0 (v - s)) as [[H1 H2]|[H1 H2]]; lra.
Qed.

(** After a step, a progress value at 0 or 1 is at its target. *)
Lemma step_label_at_bound (act : bool) (v : Q) :
  0 <= v <= 1 ->
  let v' := if act then progress_up s v else progress_down s v in
  at_bound v' = true -> v' == (if act then 1 else 0).
Proof.
  intros Hv v' Hb. subst v'. unfold at_bound in Hb.
  apply orb_true_iff in Hb. rewrite !Qeq_bool_iff in Hb.
  destruct act; simpl in *.
  - unfold progress_up in *.
    destruct (Q.min_spec 1 (v + s)) as [[H1 H2]|[H1 H2]]; lra.
  - unfold progress_down in *.
    destruct (Q.max_spec 0 (v - s)) as [[H1 H2]|[H1 H2]]; lra.
Qed.

Lemma progress_within_mono (B B' : Q) (p : pie) :
  B <= B' -> progress_within B p -> progress_within B' p.
Proof.
  intros Hle H. eapply Forall_impl; [exact H|].
  intros lv [Hb Hd]. split; [exact Hb|]. lra.
Qed.

Lemma progress_within_step (B : Q) (p : pie) :
  0 <= B -> progress_within (B + s) p -> progress_within B (animator_update s p).
Proof.
  intros HB H. unfold progress_within in *. simpl.
  apply List.Forall_map. eapply Forall_impl; [exact H|].
  intros [l v] [Hb Hd]. unfold dist in *. simpl in *.
  exact (step_label_bound (is_active (active p) l) B v HB Hb Hd).
Qed.

(** If the tick stopped the timer, every label is at its target. *)
Lemma update_stopped_at_target (p : pie) :
  Forall (fun lv => 0 <= snd lv <= 1) (labels p) ->
  Forall (fun lv => at_bound (snd lv) = true) (labels (animator_update s p)) ->
  Forall (fun lv => snd lv == (if is_active (active p) (fst lv) then 1 else 0))
         (labels (animator_update s p)).
Proof.
  intros Hb Hat. simpl in *. apply List.Forall_map in Hat. apply List.Forall_map.
  apply Forall_forall. intros [l v] Hin. rewrite Forall_forall in Hb, Hat.
  simpl. apply (step_label_at_bound (is_active (active p) l) v (Hb _ Hin) (Hat _ Hin)).
Qed.

Lemma update_timer_iff (p : pie) :
  animator_timer p = true ->
  (animator_timer (animator_update s p) = false <->
   Forall (fun lv => at_bound (snd lv) = true) (labels (animator_update s p))).
Proof.
  intros Hon. unfold animator_update. simpl.
  rewrite List.Forall_forall, <- List.forallb_forall.
  destruct (forallb _ _); split; intros H; congruence.
Qed.

Lemma progress_within_zero_at_bound (p : pie) :
  progress_within 0 p -> Forall (fun lv => at_bound (snd lv) = true) (labels p).
Proof.
  intros H. eapply Forall_impl; [exact H|]. intros [l v] [Hb Hd].
  unfold dist, at_bound in *. simpl in *. apply orb_true_iff.
  rewrite !Qeq_bool_iff. destruct (is_active (active p) l); [right|left]; lra.
Qed.

(** Liveness: from a distance of at most [k * s] to the targets, the
    animator stops within [k + 1] ticks with every label at its target. *)
Lemma animator_terminates_from (k : nat) :
  forall p, animator_timer p = true ->
  progress_within (inject_Z (Z.of_nat k) * s) p ->
  exists n, animator_timer (animator_run s n p) = false /\
            active (animator_run s n p) = active p /\
            Forall (fun lv => snd lv == (if is_active (active p) (fst lv) then 1 else 0))
                   (labels (animator_run s n p)).
Proof.
  assert (Hbounds : forall B p, progress_within B p ->
                    Forall (fun lv => 0 <= snd lv <= 1) (labels p)).
  { intros B p H. eapply Forall_impl; [exact H|]. intros lv [Hb _]. exact Hb. }
  induction k as [|k IH]; intros p Hon Hw.
  - assert (Hw' : progress_within 0 (animator_update s p)).
    { apply progress_within_step; [lra|].
      eapply progress_within_mono; [|exact Hw].
      change (inject_Z (Z.of_nat 0)) with 0%Q. rewrite Qmult_0_l. lra. }
    pose proof (progress_within_zero_at_bound _ Hw') as Hat.
    exists 1%nat. simpl. rewrite Hon. split; [|split].
    + apply (update_timer_iff p Hon). exact Hat.
    + reflexivity.
    + apply update_stopped_at_target; [exact (Hbounds _ _ Hw)|exact Hat].
  - set (K := inject_Z (Z.of_nat k)).
    assert (HK : 0 <= K * s).
    { apply Qmult_le_0_compat; [|lra]. unfold K.
      change 0%Q with (inject_Z 0). rewrite <- Zle_Qle. lia. }
    assert (Hw' : progress_within (K * s) (animator_update s p)).
    { apply progress_within_step; [exact HK|].
      eapply progress_within_mono; [|exact Hw].
      rewrite Nat2Z.inj_succ, <- Z.add_1_r, inject_Z_plus. fold K.
      rewrite Qmult_plus_distr_l, Qmult_1_l. lra. }
    destruct (animator_timer (animator_update s p)) eqn:Hon'.
    + destruct (IH _ Hon' Hw') as (n & Hn1 & Hn2 & Hn3).
      exists (S n). simpl. rewrite Hon. split; [exact Hn1|]. split; exact Hn2 || exact Hn3.
    + exists 1%nat. simpl. rewrite Hon. split; [exact Hon'|]. split; [reflexivity|].
      apply update_stopped_at_target; [exact (Hbounds _ _ Hw)|].
      apply (update_timer_iff p Hon). exact Hon'.
Qed.

End AnimatorProofs.

(** C4: one tick of [LabelAnimator._update] stops the animator's timer
    exactly when, after stepping, every progress value equals 0 or 1 (so it
    keeps running while some value lies strictly between); and, with the
    active label fixed and progress values in [0,1], the ticks reach a state
    where the timer has stopped and every label sits at its target (1 for
    the active label, 0 for the others) after finitely many ticks. *)
Theorem animator_stops_at_bounds (s : Q) (p : Pie.pie) :
  (0 < s)%Q -> Pie.animator_timer p = true ->
  Forall (fun lv => (0 <= snd lv <= 1)%Q) (Pie.labels p) ->
  (Pie.animator_timer (Pie.animator_update s p) = false <->
   Forall (fun lv => Pie.at_bound (snd lv) = true) (Pie.labels (Pie.animator_update s p))) /\
  exists n, Pie.animator_timer (Pie.animator_run s n p) = false /\
            Pie.active (Pie.animator_run s n p) = Pie.active p /\
            Forall (fun lv => (snd lv == (if Pie.is_active (Pie.active p) (fst lv) then 1 else 0))%Q)
                   (Pie.labels (Pie.animator_run s n p)).
Proof.
  intros Hs Hon Hb. split; [exact (update_timer_iff s p Hon)|].
  set (c := Qceiling (/ s)).
  assert (Hinv : (0 < / s)%Q) by (apply Qinv_lt_0_compat; exact Hs).
  assert (Hc : (/ s <= inject_Z c)%Q) by apply Qle_ceiling.
  assert (Hcpos : (0 <= c)%Z).
  { destruct (Z.le_gt_cases 0 c) as [H|H]; [exact H|].
    exfalso. assert (inject_Z c <= inject_Z 0)%Q by (rewrite <- Zle_Qle; lia).
    change (inject_Z 0) with 0%Q in *. lra. }
  apply (animator_terminates_from s Hs (Z.to_nat c) p Hon).
  apply (progress_within_mono 1 _ p).
  - rewrite Z2Nat.id by exact Hcpos.
    apply Qle_trans with (/ s * s)%Q.
    + rewrite Qmult_comm, Qmult_inv_r by lra. apply Qle_refl.
    + apply Qmult_le_compat_r; lra.
  - eapply Forall_impl; [exact Hb|]. intros [l v] Hv. unfold Pie.dist. simpl in *.
    split; [exact Hv|]. destruct (Pie.is_active (Pie.active p) l); lra.
Qed.

Lemma animator_stops_at_bounds_witness :
  let p := {| Pie.visible := true; Pie.active := Some 1%nat;
              Pie.labels := [(0%nat, (1#2)%Q); (1%nat, 0%Q)];
              Pie.manager_timer := true; Pie.animator_timer := true |} in
  (0 < 1#4)%Q /\ Pie.animator_timer p = true /\
  Forall (fun lv => (0 <= snd lv <= 1)%Q) (Pie.labels p) /\
  Pie.animator_timer (Pie.animator_update (1#4) p) = true.
Proof.
  intros p.
  assert (Hs : (0 < 1#4)%Q) by reflexivity.
  assert (Hb : Forall (fun lv => (0 <= snd lv <= 1)%Q) (Pie.labels p)).
  { repeat constructor; simpl; discriminate. }
  split; [exact Hs|]. split; [reflexivity|]. split; [exact Hb|].
  destruct (animator_stops_at_bounds (1#4) p Hs eq_refl Hb) as [Hiff _].
  case_eq (Pie.animator_timer (Pie.animator_update (1#4) p)); [reflexivity|].
  intros E. apply Hiff in E. inversion E as [|? ? Hfirst _]. discriminate Hfirst.
Defined.

(* ------------------------------------------------------------------ *)
(** ** PresetController.get_label                                      *)
(* ------------------------------------------------------------------ *)

(** C9: [get_label] never raises: an unknown preset name gives [None], a
    known one gives the pixmap made from the preset's image. *)
Theorem get_label_never_raises (catalog : gmap string Preset.preset) (value : string) :
  Preset.get_label catalog value =
  Preset.Ok (match catalog !! value with
             | None => None
             | Some p => Some (Preset.fromImage (Preset.image p))
             end).
Proof.
  unfold Preset.get_label, Preset.getitem.
  destruct (catalog !! value); reflexivity.
Qed.

(* ------------------------------------------------------------------ *)
(** ** UndoController.set_value                                        *)
(* ------------------------------------------------------------------ *)

(** C10: with [r = round(value)], [set_value] leaves the position and
    triggers nothing when [r] is the remembered position; otherwise it
    triggers exactly one action ([edit_redo] when [r] is larger,
    [edit_undo] when smaller) and moves the position by exactly one toward
    [r], however far [r] is. *)
Theorem undo_set_value_single_step (state : Z) (value : Q) :
  let '(state', actions) := Undo.set_value state value in
  let r := py_round value in
  if r =? state then state' = state /\ actions = []
  else length actions = 1%nat /\ Z.abs (state' - state) = 1 /\
       Z.abs (r - state') = Z.abs (r - state) - 1 /\
       actions = [if r >? state then "edit_redo"%string else "edit_undo"%string].
Proof.
  unfold Undo.set_value. simpl.
  destruct (Z.eqb_spec (py_round value) state) as [E|E]; [split; reflexivity|].
  destruct (Z.gtb_spec (py_round value) state) as [G|G];
    repeat split; try reflexivity; lia.
Qed.

(** UndoController: from position 0, asking for 5 performs one redo and
    remembers 1. *)
Example undo_set_value_far : Undo.set_value 0 5 = (1, ["edit_redo"%string]).
Proof. reflexivity. Qed.

(* ------------------------------------------------------------------ *)
(** ** OffsetGridLayout                                                *)
(* ------------------------------------------------------------------ *)

Section GridProofs.
Import Grid.

(** Widgets are laid out in reading order and their 2x2 cells never
    overlap: a later index is at least two rows further down, or in the same
    row at least two columns to the right. *)
Theorem grid_positions_reading_order (m i j : Z) :
  1 <= m -> 0 <= i < j ->
  gridrow (get_position m i) + 2 <= gridrow (get_position m j) \/
  (gridrow (get_position m i) = gridrow (get_position m j) /\
   gridcol (get_position m i) + 2 <= gridcol (get_position m j)).
Proof.
  intros Hm Hij. unfold get_position.
  set (n := 2 * m - 1).
  assert (Hn : 0 < n) by lia.
  pose proof (Z.div_mod i n ltac:(lia)) as Hi.
  pose proof (Z.div_mod j n ltac:(lia)) as Hj.
  pose proof (Z.mod_pos_bound i n Hn) as Hri.
  pose proof (Z.mod_pos_bound j n Hn) as Hrj.
  assert (Hg : i / n <= j / n) by (apply Z.div_le_mono; lia).
  set (g1 := i / n) in *. set (g2 := j / n) in *.
  set (t1 := i mod n) in *. set (t2 := j mod n) in *.
  assert (Hcase : g1 < g2 \/ (g1 = g2 /\ t1 < t2)).
  { destruct (Z.eq_dec g1 g2) as [E|E]; [right; split; [exact E|]|left; lia].
    rewrite E in Hi. lia. }
  destruct (Z.ltb_spec t1 m); destruct (Z.ltb_spec t2 m); simpl; lia.
Qed.

(** Widget [i] sits in row [4*g] at an even column [2*k] with [k < m], or
    two rows lower at an odd column [2*k+1] with [k < m-1], where
    [g = i div (2*m-1)] is its group; and the group's [2*m-1] indices fill
    these slots exactly, in order: its first [m] indices take the even
    columns of row [4*g] left to right, the remaining [m-1] the odd columns of
    row [4*g+2]. *)
Theorem grid_position_shape (m i g k : Z) :
  1 <= m ->
  ((exists c, 0 <= c < m /\ gridrow (get_position m i) = 4 * (i / (2 * m - 1)) /\
              gridcol (get_position m i) = 2 * c) \/
   (exists c, 0 <= c < m - 1 /\ gridrow (get_position m i) = 4 * (i / (2 * m - 1)) + 2 /\
              gridcol (get_position m i) = 2 * c + 1)) /\
  (0 <= k < m ->
   get_position m (g * (2 * m - 1) + k) = {| gridrow := 4 * g; gridcol := 2 * k |}) /\
  (0 <= k < m - 1 ->
   get_position m (g * (2 * m - 1) + m + k) =
   {| gridrow := 4 * g + 2; gridcol := 2 * k + 1 |}).
Proof.
  intros Hm. split; [|split].
  - unfold get_position.
    pose proof (Z.mod_pos_bound i (2 * m - 1) ltac:(lia)) as Hr.
    destruct (Z.ltb_spec (i mod (2 * m - 1)) m) as [H|H]; simpl.
    + left. exists (i mod (2 * m - 1)). lia.
    + right. exists (i mod (2 * m - 1) - m). lia.
  - intros Hk. unfold get_position.
    replace (g * (2 * m - 1) + k) with (k + g * (2 * m - 1)) by ring.
    rewrite Z.div_add, Z.mod_add, Z.div_small, Z.mod_small by lia.
    replace (k <? m) with true by (symmetry; apply Z.ltb_lt; lia).
    f_equal; lia.
  - intros Hk. unfold get_position.
    replace (g * (2 * m - 1) + m + k) with ((m + k) + g * (2 * m - 1)) by ring.
    rewrite Z.div_add, Z.mod_add, Z.div_small, Z.mod_small by lia.
    replace (m + k <? m) with false by (symmetry; apply Z.ltb_ge; lia).
    f_equal; lia.
Qed.

Lemma grid_position_shape_witness :
  (1 <= 4 /\ 0 <= 2 < 4 - 1) /\
  get_position 4 (1 * (2 * 4 - 1) + 4 + 2) = {| gridrow := 6; gridcol := 5 |}.
Proof.
  destruct (grid_position_shape 4 0 1 2 ltac:(lia)) as (_ & _ & H).
  split; [lia|]. exact (H ltac:(lia)).
Defined.

Lemma grid_positions_reading_order_witness :
  (1 <= 4 /\ 0 <= 3 < 4) /\
  gridrow (get_position 4 3) + 2 <= gridrow (get_position 4 4).
Proof.
  split; [lia|].
  destruct (grid_positions_reading_order 4 3 4 ltac:(lia) ltac:(lia)) as [H|[H _]].
  - exact H.
  - vm_compute in H. discriminate H.
Defined.

Lemma py_list_insert_perm {A} (l : list A) (index : Z) (x : A) :
  py_list_insert l index x ≡ₚ x :: l.
Proof.
  unfold py_list_insert. rewrite <- Permutation_middle, take_drop. reflexivity.
Qed.

Lemma py_list_insert_at_len {A} (l : list A) (x : A) :
  py_list_insert l (Z.of_nat (length l)) x = l ++ [x].
Proof.
  unfold py_list_insert.
  replace (Z.of_nat (length l) <? 0) with false by (symmetry; apply Z.ltb_ge; lia).
  rewrite Z.min_id, Nat2Z.id, take_ge, drop_ge by lia. reflexivity.
Qed.

Lemma internal_insert_nodup (lay : layout) (index : Z) (w : nat) :
  NoDup (widgets lay) -> NoDup (widgets (internal_insert lay index w)).
Proof.
  intros Hnd. unfold internal_insert. case_bool_decide as Hin; [exact Hnd|].
  simpl. rewrite py_list_insert_perm. constructor; assumption.
Qed.

Lemma append_internal (lay : layout) (w : nat) :
  widgets (internal_insert lay (len lay) w) =
  if bool_decide (w ∈ widgets lay) then widgets lay else widgets lay ++ [w].
Proof.
  unfold internal_insert, len. case_bool_decide; [reflexivity|].
  simpl. apply py_list_insert_at_len.
Qed.

(** [extend] keeps the held widgets in front, in place; it adds each given
    widget that is not yet held, once; and the widget list stays free of
    duplicates. *)
Theorem grid_extend_spec (lay : layout) (ws : list nat) :
  NoDup (widgets lay) ->
  NoDup (widgets (extend lay ws)) /\
  (exists added, widgets (extend lay ws) = widgets lay ++ added) /\
  (forall w, w ∈ widgets (extend lay ws) <-> w ∈ widgets lay \/ w ∈ ws).
Proof.
  revert lay. induction ws as [|w ws IH]; intros lay Hnd; simpl.
  - split; [exact Hnd|]. split; [exists []; by rewrite app_nil_r|].
    intros v. split; [auto|]. intros [H|H]; [exact H|inversion H].
  - destruct (IH (internal_insert lay (len lay) w)
                (internal_insert_nodup lay (len lay) w Hnd)) as (H1 & (added & H2) & H3).
    split; [exact H1|]. split.
    + rewrite H2, append_internal. case_bool_decide.
      * by exists added.
      * exists (w :: added). by rewrite <- app_assoc.
    + intros v. rewrite H3, append_internal, elem_of_cons.
      case_bool_decide as Hin.
      * split; [tauto|]. intros [H|[->|H]]; auto.
      * rewrite elem_of_app, list_elem_of_singleton. tauto.
Qed.

Lemma grid_extend_spec_witness :
  NoDup (widgets {| widgets := [1%nat]; max_columns := 4 |}) /\
  widgets (extend {| widgets := [1%nat]; max_columns := 4 |} [2%nat; 1%nat; 3%nat; 2%nat])
  = [1%nat; 2%nat; 3%nat] /\
  NoDup [1%nat; 2%nat; 3%nat].
Proof.
  assert (Hnd : NoDup (widgets {| widgets := [1%nat]; max_columns := 4 |}))
    by (simpl; repeat constructor; set_solver).
  destruct (grid_extend_spec _ [2%nat; 1%nat; 3%nat; 2%nat] Hnd) as (H & _).
  assert (E : widgets (extend {| widgets := [1%nat]; max_columns := 4 |}
                 [2%nat; 1%nat; 3%nat; 2%nat]) = [1%nat; 2%nat; 3%nat])
    by (vm_compute; reflexivity).
  split; [exact Hnd|]. split; [exact E|]. rewrite <- E. exact H.
Defined.

(** [insert]: a widget already held changes nothing; a new one is put at the
    requested index when it is within [0, len]; the widget list stays free
    of duplicates. *)
Theorem grid_insert_spec (lay : layout) (index : Z) (w : nat) :
  NoDup (widgets lay) ->
  NoDup (widgets (insert lay index w)) /\
  (w ∈ widgets lay -> insert lay index w = lay) /\
  (w ∉ widgets lay -> 0 <= index <= len lay ->
   widgets (insert lay index w) !! Z.to_nat index = Some w /\
   length (widgets (insert lay index w)) = S (length (widgets lay))).
Proof.
  intros Hnd. split; [apply internal_insert_nodup, Hnd|]. split.
  - intros Hin. unfold insert, internal_insert. by rewrite bool_decide_eq_true_2.
  - intros Hnot Hb. unfold insert, internal_insert.
    rewrite bool_decide_eq_false_2 by exact Hnot. simpl. unfold len in Hb.
    split.
    + unfold py_list_insert.
      replace (index <? 0) with false by (symmetry; apply Z.ltb_ge; lia).
      rewrite Z.min_l by lia.
      apply list_lookup_middle. rewrite length_take. lia.
    + rewrite (Permutation_length (py_list_insert_perm (widgets lay) index w)).
      reflexivity.
Qed.

Lemma grid_insert_spec_witness :
  NoDup (widgets {| widgets := [1%nat; 2%nat]; max_columns := 4 |}) /\
  widgets (insert {| widgets := [1%nat; 2%nat]; max_columns := 4 |} 1 7) !! 1%nat
  = Some 7%nat.
Proof.
  assert (Hnd : NoDup (widgets {| widgets := [1%nat; 2%nat]; max_columns := 4 |}))
    by (simpl; repeat constructor; set_solver).
  split; [exact Hnd|].
  destruct (grid_insert_spec _ 1 7 Hnd) as (_ & _ & H).
  destruct (H ltac:(simpl; set_solver) ltac:(vm_compute; split; discriminate)) as [H1 _].
  exact H1.
Defined.

End GridProofs.

(* ------------------------------------------------------------------ *)
(** ** PickStrategy                                                    *)
(* ------------------------------------------------------------------ *)

Section PickProofs.
Context {node : Type} `{EqDecision node}.
Variable is_visible : node -> bool.

(** [__pick_visible] keeps the document's order, returns only nodes that
    are visible or are the current node, returns every visible node, and
    returns the current node whenever it is among the document's nodes. *)
Theorem pick_visible_spec (all_nodes : list node) (current : node) :
  LayerPicker.pick_visible is_visible all_nodes current `sublist_of` all_nodes /\
  (forall n, n ∈ LayerPicker.pick_visible is_visible all_nodes current ->
             is_visible n = true \/ n = current) /\
  (forall n, n ∈ all_nodes -> is_visible n = true ->
             n ∈ LayerPicker.pick_visible is_visible all_nodes current) /\
  (current ∈ all_nodes ->
   current ∈ LayerPicker.pick_visible is_visible all_nodes current).
Proof.
  unfold LayerPicker.pick_visible.
  split; [apply sublist_filter|].
  split; [|split].
  - intros n Hn. apply list_elem_of_filter in Hn. tauto.
  - intros n Hn Hv. apply list_elem_of_filter. auto.
  - intros Hcur. apply list_elem_of_filter. auto.
Qed.

End PickProofs.

Lemma pick_visible_spec_witness :
  (3%nat ∈ [1%nat; 2%nat; 3%nat]) /\
  3%nat ∈ LayerPicker.pick_visible Nat.even [1%nat; 2%nat; 3%nat] 3%nat.
Proof.
  assert (Hc : 3%nat ∈ [1%nat; 2%nat; 3%nat]) by set_solver.
  destruct (pick_visible_spec Nat.even [1%nat; 2%nat; 3%nat] 3%nat) as (_ & _ & _ & H).
  split; [exact Hc|exact (H Hc)].
Defined.

(* ------------------------------------------------------------------ *)
(** ** Node-based controllers                                          *)
(* ------------------------------------------------------------------ *)

(** The three [set_value]s of the node controllers: the property takes the
    value, the document is refreshed exactly when it differed, nothing else
    changes, and setting the same value again does nothing more. *)
Theorem node_controllers_set_value (st : NodeCtl.node_state)
    (o : Z) (bm : string) (vis : bool) :
  let s1 := NodeCtl.LayerOpacity_set_value st o in
  let s2 := NodeCtl.LayerBlendingMode_set_value st bm in
  let s3 := NodeCtl.LayerVisibility_set_value st vis in
  (NodeCtl.opacity s1 = o /\
   NodeCtl.blending_mode s1 = NodeCtl.blending_mode st /\
   NodeCtl.visible s1 = NodeCtl.visible st /\
   NodeCtl.document_refreshes s1 =
     (if NodeCtl.opacity st =? o then NodeCtl.document_refreshes st
      else S (NodeCtl.document_refreshes st)) /\
   NodeCtl.LayerOpacity_set_value s1 o = s1) /\
  (NodeCtl.blending_mode s2 = bm /\
   NodeCtl.opacity s2 = NodeCtl.opacity st /\
   NodeCtl.visible s2 = NodeCtl.visible st /\
   NodeCtl.document_refreshes s2 =
     (if bool_decide (NodeCtl.blending_mode st = bm) then NodeCtl.document_refreshes st
      else S (NodeCtl.document_refreshes st)) /\
   NodeCtl.LayerBlendingMode_set_value s2 bm = s2) /\
  (NodeCtl.visible s3 = vis /\
   NodeCtl.opacity s3 = NodeCtl.opacity st /\
   NodeCtl.blending_mode s3 = NodeCtl.blending_mode st /\
   NodeCtl.document_refreshes s3 =
     (if Bool.eqb (NodeCtl.visible st) vis then NodeCtl.document_refreshes st
      else S (NodeCtl.document_refreshes st)) /\
   NodeCtl.LayerVisibility_set_value s3 vis = s3).
Proof.
  destruct st as [op b v r]. simpl.
  unfold NodeCtl.LayerOpacity_set_value, NodeCtl.LayerBlendingMode_set_value,
    NodeCtl.LayerVisibility_set_value; simpl.
  split; [|split].
  - destruct (Z.eqb_spec op o) as [->|E]; simpl; [rewrite Z.eqb_refl; auto|].
    rewrite Z.eqb_refl. auto.
  - destruct (bool_decide (b = bm)) eqn:E; simpl.
    + apply bool_decide_eq_true in E. subst. rewrite bool_decide_eq_true_2 by reflexivity.
      auto.
    + rewrite bool_decide_eq_true_2 by reflexivity. auto.
  - destruct v, vis; simpl; auto.
Qed.

(* ------------------------------------------------------------------ *)
(** ** UndoController: repeated calls                                  *)
(* ------------------------------------------------------------------ *)

Lemma undo_run_up (value : Q) (n : nat) (state : Z) :
  py_round value - state = Z.of_nat n ->
  Undo_set_value_n state value n = (py_round value, repeat "edit_redo"%string n).
Proof.
  revert state. induction n as [|n IH]; intros state Hd; simpl.
  - f_equal. lia.
  - unfold Undo.set_value.
    replace (py_round value =? state) with false by (symmetry; apply Z.eqb_neq; lia).
    replace (py_round value >? state) with true by (symmetry; apply Z.gtb_lt; lia).
    rewrite (IH (state + 1)) by lia. reflexivity.
Qed.

Lemma undo_run_down (value : Q) (n : nat) (state : Z) :
  state - py_round value = Z.of_nat n ->
  Undo_set_value_n state value n = (py_round value, repeat "edit_undo"%string n).
Proof.
  revert state. induction n as [|n IH]; intros state Hd; simpl.
  - f_equal. lia.
  - unfold Undo.set_value.
    replace (py_round value =? state) with false by (symmetry; apply Z.eqb_neq; lia).
    replace (py_round value >? state) with false by (symmetry; rewrite Z.gtb_ltb; apply Z.ltb_ge; lia).
    rewrite (IH (state - 1)) by lia. reflexivity.
Qed.

(** Calling [UndoController.set_value] repeatedly with the same value walks
    the undo stack one step per call toward [round(value)]: after
    [|round(value) - state|] calls it is there, having triggered that many
    redo actions (going up) or undo actions (going down) and nothing else;
    further calls trigger nothing. *)
Theorem undo_set_value_converges (state : Z) (value : Q) (extra : nat) :
  let d := Z.to_nat (Z.abs (py_round value - state)) in
  Undo_set_value_n state value d =
    (py_round value,
     repeat (if py_round value >? state then "edit_redo"%string else "edit_undo"%string) d) /\
  Undo_set_value_n (py_round value) value extra = (py_round value, []).
Proof.
  intros d. split.
  - destruct (Z.gtb_spec (py_round value) state) as [H|H].
    + apply undo_run_up. subst d. lia.
    + apply undo_run_down. subst d. lia.
  - induction extra as [|k IH]; simpl; [reflexivity|].
    unfold Undo.set_value. rewrite Z.eqb_refl, IH. reflexivity.
Qed.

(* ------------------------------------------------------------------ *)
(** ** PieManager: repeated polls                                      *)
(* ------------------------------------------------------------------ *)

Section PieRepeat.
Import Pie.

Lemma manager_stop_twice (p : pie) :
  manager_stop true (manager_stop true p) = manager_stop true p.
Proof.
  unfold manager_stop. simpl. f_equal.
  induction (labels p) as [|[l v] ls IH]; simpl; [reflexivity|]. by rewrite IH.
Qed.

Lemma set_active_label_twice (lbl : option nat) (p : pie) :
  set_active_label lbl (set_active_label lbl p) = set_active_label lbl p.
Proof.
  unfold set_active_label at 1.
  destruct (set_active_label_active lbl p) as [Ha _].
  rewrite Ha, bool_decide_eq_false_2 by tauto. reflexivity.
Qed.

(** Polling [_handle_cursor] again with the cursor at the same place
    changes no state, and the second poll makes no call at all on a visible
    pie: it neither assigns the active label nor starts the animator.  On a
    hidden pie it calls [stop()] again, which changes nothing. *)
Theorem handle_cursor_repeat (g : geometry) (cursor : point) (p : pie) :
  handle_cursor g cursor (handle_cursor g cursor p) = handle_cursor g cursor p /\
  handle_cursor_calls g cursor (handle_cursor g cursor p) =
    (if visible p then [] else [StopCall]).
Proof.
  unfold handle_cursor at 2 3 4. destruct (visible p) eqn:Hv; simpl.
  - destruct (Qle_bool (deadzone g) (distance g cursor)) eqn:Hd; simpl;
      unfold handle_cursor, handle_cursor_calls;
      [destruct (set_active_label_active (Some (label_on_angle g cursor)) p) as (Ha & Hv' & _)
      |destruct (set_active_label_active None p) as (Ha & Hv' & _)];
      rewrite Hv', Hv, Hd; simpl;
      (split; [apply set_active_label_twice|]);
      unfold set_active_label_calls; rewrite Ha, bool_decide_eq_false_2 by tauto;
      reflexivity.
  - unfold handle_cursor, handle_cursor_calls. simpl.
    split; [apply manager_stop_twice|reflexivity].
Qed.

End PieRepeat.

(* ------------------------------------------------------------------ *)
(** ** LabelWidget                                                     *)
(* ------------------------------------------------------------------ *)

Section WidgetProofs.
Import Widget.

(** Disabling a widget makes it not draggable with the cross cursor, draws
    its border in the dark active colour and makes a mouse press start no
    drag; enabling it again does not make it draggable again. *)
Theorem set_enabled_false (w : label_widget) :
  let w' := set_enabled w false in
  enabled w' = false /\ draggable w' = false /\ cursor w' = CrossCursor /\
  border_color_of w' = active_color_dark /\
  (forall left_only, mouse_press_starts_drag w' left_only = false) /\
  draggable (set_enabled w' true) = false /\
  border_color_of (set_enabled w' true) = border_color.
Proof.
  simpl. repeat split.
  intros b. unfold mouse_press_starts_drag. simpl. by rewrite orb_true_r.
  unfold border_color_of. simpl. by rewrite andb_false_r.
Qed.

Lemma fold_insert_lookup (ds : list nat) (v : string) (t : texts) (k : nat) :
  fold_left (fun t d => <[d := v]> t) ds t !! k =
  if bool_decide (k ∈ ds) then Some v else t !! k.
Proof.
  revert t. induction ds as [|d ds IH]; intros t; cbn [fold_left].
  - case_bool_decide as H; [apply not_elem_of_nil in H; contradiction|reflexivity].
  - rewrite IH. destruct (decide (k ∈ ds)) as [Hin|Hin].
    + rewrite !bool_decide_eq_true_2; [reflexivity|set_solver|exact Hin].
    + rewrite (bool_decide_eq_false_2 (k ∈ ds)) by exact Hin.
      destruct (decide (d = k)) as [->|Hne].
      * rewrite lookup_insert_eq, bool_decide_eq_true_2 by set_solver. reflexivity.
      * rewrite lookup_insert_ne by exact Hne.
        rewrite bool_decide_eq_false_2 by set_solver. reflexivity.
Qed.

(** Hovering over a widget and leaving it: while hovered every QLabel of its
    instructions shows the label's pretty name; after leaving the widget is
    no longer hovered, those QLabels are empty and every other QLabel is as
    before. *)
Theorem enter_leave_texts (w : label_widget) (pretty : string) (t : texts) (k : nat) :
  let entered := enter_event w pretty t in
  let left := leave_event (fst entered) (snd entered) in
  hovered (fst entered) = true /\ hovered (fst left) = false /\
  instructions (fst left) = instructions w /\
  (k ∈ instructions w ->
   snd entered !! k = Some pretty /\ snd left !! k = Some ""%string) /\
  (k ∉ instructions w -> snd left !! k = t !! k).
Proof.
  simpl. rewrite !fold_insert_lookup. simpl.
  split; [reflexivity|]. split; [reflexivity|]. split; [reflexivity|].
  split.
  - intros Hk. rewrite !bool_decide_eq_true_2 by exact Hk. auto.
  - intros Hk. rewrite !bool_decide_eq_false_2 by exact Hk. reflexivity.
Qed.

Lemma enter_leave_texts_witness :
  let w := {| draggable := true; enabled := true; hovered := false;
              cursor := ArrowCursor; instructions := [1%nat; 2%nat] |} in
  (1%nat ∈ instructions w) /\
  snd (enter_event w "Soft"%string ∅) !! 1%nat = Some "Soft"%string.
Proof.
  intros w.
  assert (Hk : 1%nat ∈ instructions w) by (simpl; set_solver).
  destruct (enter_leave_texts w "Soft"%string ∅ 1%nat) as (_ & _ & _ & H & _).
  split; [exact Hk|]. exact (proj1 (H Hk)).
Defined.

End WidgetProofs.

(* ------------------------------------------------------------------ *)
(** ** get_sleep_time is antitone                                      *)
(* ------------------------------------------------------------------ *)

Lemma py_round_div_floor (n d : Z) :
  0 < d -> n / d <= py_round_div n d <= n / d + 1.
Proof.
  intros Hd. unfold py_round_div.
  destruct (Z.compare (2 * (n mod d)) d); [destruct (Z.even (n / d))|..]; lia.
Qed.

Lemma py_round_div_antitone (n d1 d2 : Z) :
  0 <= n -> 0 < d1 <= d2 -> py_round_div n d2 <= py_round_div n d1.
Proof.
  intros Hn Hd.
  pose proof (Z.div_le_compat_l n d1 d2 Hn Hd) as Hf.
  pose proof (py_round_div_floor n d1 ltac:(lia)) as B1.
  pose proof (py_round_div_floor n d2 ltac:(lia)) as B2.
  destruct (Z.lt_ge_cases (n / d2) (n / d1)) as [Hlt|Hge]; [lia|].
  assert (Heq : n / d2 = n / d1) by lia. clear B1 B2 Hge Hf.
  pose proof (Z.div_mod n d1 ltac:(lia)) as E1.
  pose proof (Z.div_mod n d2 ltac:(lia)) as E2.
  pose proof (Z.div_pos n d1 Hn ltac:(lia)) as Hpos.
  unfold py_round_div. rewrite Heq.
  set (f := n / d1) in *. set (r1 := n mod d1) in *. set (r2 := n mod d2) in *.
  rewrite Heq in E2.
  assert (Hc : 2 * r2 - d2 <= 2 * r1 - d1) by nia.
  destruct (Z.compare_spec (2 * r1) d1); destruct (Z.compare_spec (2 * r2) d2);
    try destruct (Z.even f); lia.
Qed.

(** A higher FPS limit never gives a longer sleep time between repaints,
    for positive limits.  (The limit 0, meaning "no limit", maps to 1 ms and
    is outside this order: 1 FPS gives 1000 ms.) *)
Theorem get_sleep_time_antitone (f1 f2 : Z) :
  1 <= f1 <= f2 -> Config.get_sleep_time f2 <= Config.get_sleep_time f1.
Proof.
  intros H. unfold Config.get_sleep_time.
  replace (f1 =? 0) with false by (symmetry; apply Z.eqb_neq; lia).
  replace (f2 =? 0) with false by (symmetry; apply Z.eqb_neq; lia).
  replace (0 <? f1) with true by (symmetry; apply Z.ltb_lt; lia).
  replace (0 <? f2) with true by (symmetry; apply Z.ltb_lt; lia).
  apply py_round_div_antitone; lia.
Qed.

Lemma get_sleep_time_antitone_witness :
  (1 <= 30 <= 60) /\ Config.get_sleep_time 60 <= Config.get_sleep_time 30.
Proof. split; [lia|]. apply get_sleep_time_antitone. lia. Defined.

(* ------------------------------------------------------------------ *)
(** ** FieldBase.write: frame and repeated writes                      *)
(* ------------------------------------------------------------------ *)

Section FieldMore.
Import Py Field.



End FieldMore.

(* ------------------------------------------------------------------ *)
(** ** DoubleAxisTracker: handler starts per press                     *)
(* ------------------------------------------------------------------ *)

Section DoubleAxisCount.
Import DoubleAxis.

Lemma step_starts_bound (t : tracker) (e : event) :
  (starts (horizontal (step t e)) + starts (vertical (step t e)) + timer_bit (step t e)
   <= starts (horizontal t) + starts (vertical t) + timer_bit t
      + (if is_press e then 1 else 0))%nat.
Proof.
  unfold timer_bit. destruct e as [cur|cur|]; simpl.
  - destruct (timer_active t); lia.
  - destruct (timer_active t) eqn:Ht; [|simpl; rewrite Ht; lia].
    unfold start_after_picking_slider.
    destruct (comparator t) as [c|]; [|rewrite Ht; lia].
    destruct ((delta_x c cur <=? 10) && (delta_y c cur <=? 10)); [rewrite Ht; lia|].
    destruct (is_horizontal c cur); simpl; lia.
  - lia.
Qed.

Lemma run_starts_bound (t : tracker) (es : list event) :
  (starts (horizontal (run t es)) + starts (vertical (run t es)) + timer_bit (run t es)
   <= starts (horizontal t) + starts (vertical t) + timer_bit t
      + length (List.filter is_press es))%nat.
Proof.
  revert t. induction es as [|e es IH]; intros t; [simpl; lia|].
  change (run t (e :: es)) with (run (step t e) es).
  specialize (IH (step t e)). pose proof (step_starts_bound t e) as H1.
  simpl. destruct (is_press e); simpl in *; lia.
Qed.

(** Whatever the events, the tracker starts at most one handler per key
    press: starts after a release (see C1) are no exception. *)
Theorem double_axis_starts_per_press (es : list event) :
  (starts (horizontal (run init es)) + starts (vertical (run init es))
   <= length (List.filter is_press es))%nat.
Proof.
  pose proof (run_starts_bound init es). simpl in H. lia.
Qed.

End DoubleAxisCount.
